(** * ChCollisionModel: the shape registry, the family/mask gate and the
      margin policy of Project Chrono's collision-model base class.

    The development follows [chrono/collision/ChCollisionModel.h]: the
    data members of the class become a record, the inline member
    functions become functions on that record, and the pure virtual
    members become the methods of a type class that every collision
    backend instantiates.  Machine integers are integers of [Z] with the
    conversions written out; [float] and [double] are the IEEE 754
    binary32 and binary64 formats of the standard library's [SpecFloat]. *)

From Stdlib Require Import ZArith Bool Lia.
From Stdlib Require Import Floats.SpecFloat.
From stdpp Require Import base list.

Local Open Scope Z_scope.

(** ** Machine integers *)

Module MachineInt.

(** Conversion to a signed two's complement integer of [w] bits. *)
Definition wrap (w : Z) (z : Z) : Z :=
  let u := z mod 2 ^ w in
  if u <? 2 ^ (w - 1) then u else u - 2 ^ w.

(** [short int] has 16 bits, [int] has 32 bits. *)
Definition to_short : Z -> Z := wrap 16.
Definition to_int : Z -> Z := wrap 32.

Definition is_short (z : Z) : Prop := -32768 <= z <= 32767.

(** Number of set bits among the [n] low bits of [z]. *)
Fixpoint popcount (n : nat) (z : Z) : nat :=
  match n with
  | O => O
  | S n' => ((if Z.testbit z (Z.of_nat n') then 1 else 0) + popcount n' z)%nat
  end.

(** Population count of a [short int]. *)
Definition popcount16 : Z -> nat := popcount 16.

End MachineInt.

(** ** Floating point *)

Module IEEE.

(** [double] is binary64 and [float] is binary32; a datum of either
    format is a [spec_float], valid for its precision and exponent
    range. *)
Definition double : Type := spec_float.
Definition float : Type := spec_float.

Definition is_double (d : double) : Prop := valid_binary 53 1024 d = true.
Definition is_float (f : float) : Prop := valid_binary 24 128 f = true.

(** The conversion [(float)d]: rounding to nearest, ties to even. *)
Definition double_to_float (d : double) : float :=
  match d with
  | S754_finite s m e => binary_round 24 128 s m e
  | _ => d
  end.

(** The implicit promotion of a [float] to [double], which is exact. *)
Definition float_to_double (f : float) : double :=
  match f with
  | S754_finite s m e => binary_round 53 1024 s m e
  | _ => f
  end.

(** [x + y] on two [float] operands, computed in binary32. *)
Definition float_add (x y : float) : float := SFadd 24 128 x y.

(** The comparison [x == y] of C++, false when an operand is a NaN. *)
Definition float_eq (x y : spec_float) : bool := SFeqb x y.

Definition is_nan (x : spec_float) : bool :=
  match x with S754_nan => true | _ => false end.

Definition float_zero : float := S754_zero false.

End IEEE.

Import MachineInt IEEE.

(** ** The class [ChCollisionModel] *)

Section CollisionModel.

(** Types declared in headers that the class only refers to: the
    contactable object, the collision shape, a vector of three doubles, a
    3x3 matrix and a 2D path. *)
Context {ChContactable ChCollisionShape ChVector ChMatrix33 ChLinePath : Type}.

(** The data members.  A pointer is [None] when null; the vector of
    shared shape pointers is the list of the shapes in insertion order. *)
Record ChCollisionModel : Type := mkChCollisionModel {
  model_envelope : float;
  model_safe_margin : float;
  mcontactable : option ChContactable;
  family_group : Z;
  family_mask : Z;
  m_shapes : list ChCollisionShape
}.

(** *** Members with a body in the class definition *)

Definition GetContactable (this : ChCollisionModel) : option ChContactable :=
  mcontactable this.

Definition SetContactable (mc : option ChContactable)
    (this : ChCollisionModel) : ChCollisionModel :=
  mkChCollisionModel (model_envelope this) (model_safe_margin this) mc
    (family_group this) (family_mask this) (m_shapes this).

Definition GetFamilyGroup (this : ChCollisionModel) : Z := family_group this.

Definition GetFamilyMask (this : ChCollisionModel) : Z := family_mask this.

Definition SetSafeMargin (amargin : double)
    (this : ChCollisionModel) : ChCollisionModel :=
  mkChCollisionModel (model_envelope this) (double_to_float amargin)
    (mcontactable this) (family_group this) (family_mask this) (m_shapes this).

Definition GetSafeMargin (this : ChCollisionModel) : float :=
  model_safe_margin this.

Definition SetEnvelope (amargin : double)
    (this : ChCollisionModel) : ChCollisionModel :=
  mkChCollisionModel (double_to_float amargin) (model_safe_margin this)
    (mcontactable this) (family_group this) (family_mask this) (m_shapes this).

Definition GetEnvelope (this : ChCollisionModel) : float :=
  model_envelope this.

(** [(int)m_shapes.size()] *)
Definition GetNumShapes (this : ChCollisionModel) : Z :=
  to_int (Z.of_nat (length (m_shapes this))).

(** [m_shapes[index]]: the subscript of a vector is defined only inside
    its bounds; [None] stands for the undefined behaviour outside them
    (a negative [int] converts to a size far above any length). *)
Definition GetShape (index : Z) (this : ChCollisionModel)
    : option ChCollisionShape :=
  if index <? 0 then None else m_shapes this !! Z.to_nat index.

Definition GetSuggestedFullMargin (this : ChCollisionModel) : float :=
  float_add (model_envelope this) (model_safe_margin this).


(** *** Members that a derived class implements

    A collision backend derives from the class: its object holds the base
    sub-object next to its own data and implements the pure virtual
    members.  Of those only [AddSphere] is called from a member with a
    body in the class definition.  The result is the returned [bool] and
    the object after the call. *)
Class ChCollisionBackend (Derived : Type) : Type := {
  base : Derived -> ChCollisionModel;
  AddSphere : double -> ChVector -> Derived -> bool * Derived
}.

(** The default body of the virtual member [Add2Dpath]. *)
Definition Add2Dpath {Derived : Type} (mpath : option ChLinePath)
    (pos : ChVector) (rot : ChMatrix33) (thickness : double)
    (this : Derived) : bool * Derived :=
  (true, this).

(** The default body of the virtual member [AddPoint]: the sphere is
    added through the virtual [AddSphere], whose result is dropped. *)
Definition AddPoint {Derived : Type} `{ChCollisionBackend Derived}
    (radius : double) (pos : ChVector) (this : Derived) : bool * Derived :=
  let this' := snd (AddSphere radius pos this) in
  (true, this').

(** *** Members declared in the class and defined out of line *)

(** Modelled from the spec: the constructor, whose body is not in the
    header.  A new model belongs to family 0, its family mask has all bits
    set, and its envelope and margin are the process-wide defaults, which
    the constructor reads.  The vector of shapes starts empty. *)
Definition ChCollisionModel_new (default_model_envelope default_safe_margin : double)
    : ChCollisionModel :=
  mkChCollisionModel (double_to_float default_model_envelope)
    (double_to_float default_safe_margin) None
    (to_short 1) (to_short 65535) [].

(** Modelled from the spec: the body of [SetFamilyGroup] is not in the
    header.  It stores its argument, a [short int], as the family group. *)
Definition SetFamilyGroup (group : Z) (this : ChCollisionModel) : ChCollisionModel :=
  mkChCollisionModel (model_envelope this) (model_safe_margin this)
    (mcontactable this) (to_short group) (family_mask this) (m_shapes this).

(** Modelled from the spec: the body of [SetFamily] is not in the header.
    [SetFamily(n)] is [SetFamilyGroup(1 << n)], the shift being one of
    [int], which C++ defines for n in 0..30. *)
Definition SetFamily (mfamily : Z) (this : ChCollisionModel) : ChCollisionModel :=
  SetFamilyGroup (to_int (Z.shiftl 1 mfamily)) this.

(** Modelled from the spec: the body of [SetFamilyMask] is not in the
    header.  It stores its argument, a [short int], as the family mask. *)
Definition SetFamilyMask (mask : Z) (this : ChCollisionModel) : ChCollisionModel :=
  mkChCollisionModel (model_envelope this) (model_safe_margin this)
    (mcontactable this) (family_group this) (to_short mask) (m_shapes this).

(** Modelled from the spec: the body of
    [SetFamilyMaskNoCollisionWithFamily] is not in the header.  It clears
    bit [mfamily] of the family mask. *)
Definition SetFamilyMaskNoCollisionWithFamily (mfamily : Z)
    (this : ChCollisionModel) : ChCollisionModel :=
  SetFamilyMask (Z.clearbit (family_mask this) mfamily) this.

(** Modelled from the spec: the body of
    [SetFamilyMaskDoCollisionWithFamily] is not in the header.  It sets bit
    [mfamily] of the family mask. *)
Definition SetFamilyMaskDoCollisionWithFamily (mfamily : Z)
    (this : ChCollisionModel) : ChCollisionModel :=
  SetFamilyMask (Z.setbit (family_mask this) mfamily) this.

(** Modelled from the spec: the body of
    [GetFamilyMaskDoesCollisionWithFamily] is not in the header.  The model
    collides with a family when the bit of that family is set in the family
    mask. *)
Definition GetFamilyMaskDoesCollisionWithFamily (mfamily : Z)
    (this : ChCollisionModel) : bool :=
  Z.testbit (family_mask this) mfamily.

(** Modelled from the spec: the contact gate lives in the collision
    systems, which are not part of the header.  Two models may generate
    contacts when the family group of each meets the family mask of the
    other. *)
Definition CanCollide (X Y : ChCollisionModel) : bool :=
  negb (Z.land (GetFamilyGroup X) (GetFamilyMask Y) =? 0)
  && negb (Z.land (GetFamilyGroup Y) (GetFamilyMask X) =? 0).

(** *** Sequences of calls of the family setters *)





(** *** Sequences of calls of the setters with a body in the class *)

Inductive SetterCall : Type :=
| CallSetSafeMargin (amargin : double)
| CallSetEnvelope (amargin : double)
| CallSetContactable (mc : option ChContactable).

Definition run_setter (c : SetterCall) (this : ChCollisionModel) : ChCollisionModel :=
  match c with
  | CallSetSafeMargin amargin => SetSafeMargin amargin this
  | CallSetEnvelope amargin => SetEnvelope amargin this
  | CallSetContactable mc => SetContactable mc this
  end.

Fixpoint run_setters (cs : list SetterCall) (this : ChCollisionModel) : ChCollisionModel :=
  match cs with
  | [] => this
  | c :: cs' => run_setters cs' (run_setter c this)
  end.

Definition sets_safe_margin (c : SetterCall) : bool :=
  match c with CallSetSafeMargin _ => true | _ => false end.

Definition sets_envelope (c : SetterCall) : bool :=
  match c with CallSetEnvelope _ => true | _ => false end.

(** *** Sequences of calls of [AddPoint] and of [AddSphere]

    One call for each radius and position of the list, in order; the
    results of the calls come with the object after the last one. *)

Fixpoint AddPoint_each {Derived : Type} `{ChCollisionBackend Derived}
    (ps : list (double * ChVector)) (this : Derived) : list bool * Derived :=
  match ps with
  | [] => ([], this)
  | p :: ps' =>
      let r := AddPoint (fst p) (snd p) this in
      let rs := AddPoint_each ps' (snd r) in
      (fst r :: fst rs, snd rs)
  end.

Fixpoint AddSphere_each {Derived : Type} `{ChCollisionBackend Derived}
    (ps : list (double * ChVector)) (this : Derived) : list bool * Derived :=
  match ps with
  | [] => ([], this)
  | p :: ps' =>
      let r := AddSphere (fst p) (snd p) this in
      let rs := AddSphere_each ps' (snd r) in
      (fst r :: fst rs, snd rs)
  end.

End CollisionModel.

Arguments ChCollisionModel : clear implicits.
Arguments ChCollisionBackend : clear implicits.

(** ** Two backends and some data, to evaluate the class on *)

(** Modelled from the spec: [ChVector<>], declared outside the header,
    holds the three coordinates x y z of a point as doubles. *)
Definition Vector3 : Type := (double * double * double)%type.

(** Modelled from the spec: a collision shape, declared outside the
    header, records its kind and its parameters; the sphere is the one kind
    needed here, with its radius and its position. *)
Inductive Shape : Type :=
| SphereShape (radius : double) (pos : Vector3).

(** Modelled from the spec: a backend that supports spheres.  Its
    [AddSphere] appends one shape to the registry and returns [true]. *)
Record SphereModel : Type := mkSphereModel {
  sphere_base : ChCollisionModel unit Shape
}.

Definition SphereModel_AddSphere (radius : double) (pos : Vector3)
    (this : SphereModel) : bool * SphereModel :=
  let b := sphere_base this in
  (true,
   mkSphereModel
     (mkChCollisionModel (model_envelope b) (model_safe_margin b)
        (mcontactable b) (family_group b) (family_mask b)
        (m_shapes b ++ [SphereShape radius pos]))).

#[global] Instance SphereModel_backend
    : ChCollisionBackend unit Shape Vector3 SphereModel :=
  {| base := sphere_base; AddSphere := SphereModel_AddSphere |}.

(** Modelled from the spec: a backend that does not support spheres.  Its
    [AddSphere] returns [false] and adds no shape. *)
Record MeshModel : Type := mkMeshModel {
  mesh_base : ChCollisionModel unit Shape
}.

Definition MeshModel_AddSphere (radius : double) (pos : Vector3)
    (this : MeshModel) : bool * MeshModel :=
  (false, this).

#[global] Instance MeshModel_backend
    : ChCollisionBackend unit Shape Vector3 MeshModel :=
  {| base := mesh_base; AddSphere := MeshModel_AddSphere |}.

(** The doubles 0, 0.5 and the double nearest to 0.1. *)
Definition double_zero : double := S754_zero false.
Definition double_half : double := S754_finite false 4503599627370496 (-53).
Definition double_tenth : double := S754_finite false 7205759403792794 (-56).

Definition origin : Vector3 := (double_zero, double_zero, double_zero).

(** A new model whose defaults for envelope and margin are zero. *)
Definition new_model : ChCollisionModel unit Shape :=
  ChCollisionModel_new double_zero double_zero.

(** The float nearest to 0.1 and the float 1. *)
Definition float_tenth : float := S754_finite false 13421773 (-27).
Definition float_one : float := S754_finite false 8388608 (-23).

(** The double -0.5. *)
Definition double_minus_half : double :=
  S754_finite true 4503599627370496 (-53).

(** The model of the backend with spheres after two spheres were added. *)
Definition two_spheres_model : ChCollisionModel unit Shape :=
  base (snd (AddSphere double_half origin
               (snd (AddSphere double_tenth origin
                       (mkSphereModel new_model))))).

(** A model whose safe margin was set to minus infinity and whose
    envelope was set to plus infinity. *)
Definition infinite_margins_model : ChCollisionModel unit Shape :=
  SetEnvelope (S754_infinity false)
    (SetSafeMargin (S754_infinity true) new_model).

(** ** More on floating point data *)

(** The sign bit of a datum that has one. *)
Definition float_sign (x : spec_float) : option bool :=
  match x with
  | S754_zero s | S754_infinity s | S754_finite s _ _ => Some s
  | S754_nan => None
  end.

Definition is_infinity (x : spec_float) : bool :=
  match x with S754_infinity _ => true | _ => false end.

(** Two infinities of opposite signs. *)
Definition opposite_infinities (x y : spec_float) : bool :=
  match x, y with
  | S754_infinity sx, S754_infinity sy => xorb sx sy
  | _, _ => false
  end.

(** ** The checks of [unit_testing.h] *)

Module UnitTesting.

(** [real] is [float] or [double] by the configuration of the build, in
    a header that is not at hand: its precision [prec] and exponent bound
    [emax] are arguments of the checks that compute with reals. *)
Definition real : Type := spec_float.

(** A check returns to its caller or ends the process by [exit(1)].  The
    line written to [std::cout] before the exit is left out. *)
Inductive outcome : Type :=
| Returns
| Exits (status : Z).

(** Two statements in sequence: nothing runs after an exit. *)
Definition and_then (a b : outcome) : outcome :=
  match a with
  | Returns => b
  | Exits status => Exits status
  end.

(** The structures of reals, with the members the checks read. *)
Module real3.
Record t : Type := mk { x : real; y : real; z : real }.
End real3.

Module real4.
Record t : Type := mk { w : real; x : real; y : real; z : real }.
End real4.

Module quaternion.
Record t : Type := mk { w : real; x : real; y : real; z : real }.
End quaternion.

(** [cols[0]], [cols[1]] and [cols[2]] *)
Module Mat33.
Record t : Type := mk { cols0 : real3.t; cols1 : real3.t; cols2 : real3.t }.
End Mat33.

(** [x != y] on two [int] *)
Definition StrictEqual_int (x y : Z) : outcome :=
  if negb (x =? y) then Exits 1 else Returns.

(** [x != y] on two reals *)
Definition StrictEqual_real (x y : real) : outcome :=
  if negb (float_eq x y) then Exits 1 else Returns.

Definition StrictEqual_real3 (a b : real3.t) : outcome :=
  and_then (StrictEqual_real (real3.x a) (real3.x b))
    (and_then (StrictEqual_real (real3.y a) (real3.y b))
       (StrictEqual_real (real3.z a) (real3.z b))).

Definition StrictEqual_real4 (a b : real4.t) : outcome :=
  and_then (StrictEqual_real (real4.w a) (real4.w b))
    (and_then (StrictEqual_real (real4.x a) (real4.x b))
       (and_then (StrictEqual_real (real4.y a) (real4.y b))
          (StrictEqual_real (real4.z a) (real4.z b)))).

Definition StrictEqual_Mat33 (a b : Mat33.t) : outcome :=
  and_then (StrictEqual_real3 (Mat33.cols0 a) (Mat33.cols0 b))
    (and_then (StrictEqual_real3 (Mat33.cols1 a) (Mat33.cols1 b))
       (StrictEqual_real3 (Mat33.cols2 a) (Mat33.cols2 b))).

(** [fabs(x - y) > COMPARE_EPS], the difference being one of reals;
    [fabs] drops the sign and nothing else, in whatever format it is
    computed. *)
Definition exceeds (prec emax : Z) (x y COMPARE_EPS : real) : bool :=
  SFltb COMPARE_EPS (SFabs (SFsub prec emax x y)).

Definition WeakEqual_real (prec emax : Z) (x y COMPARE_EPS : real) : outcome :=
  if exceeds prec emax x y COMPARE_EPS then Exits 1 else Returns.

Definition WeakEqual_real3 (prec emax : Z) (a b : real3.t)
    (COMPARE_EPS : real) : outcome :=
  and_then (WeakEqual_real prec emax (real3.x a) (real3.x b) COMPARE_EPS)
    (and_then (WeakEqual_real prec emax (real3.y a) (real3.y b) COMPARE_EPS)
       (WeakEqual_real prec emax (real3.z a) (real3.z b) COMPARE_EPS)).

Definition WeakEqual_real4 (prec emax : Z) (a b : real4.t)
    (COMPARE_EPS : real) : outcome :=
  and_then (WeakEqual_real prec emax (real4.x a) (real4.x b) COMPARE_EPS)
    (and_then (WeakEqual_real prec emax (real4.y a) (real4.y b) COMPARE_EPS)
       (and_then (WeakEqual_real prec emax (real4.z a) (real4.z b) COMPARE_EPS)
          (WeakEqual_real prec emax (real4.w a) (real4.w b) COMPARE_EPS))).

Definition WeakEqual_quaternion (prec emax : Z) (a b : quaternion.t)
    (COMPARE_EPS : real) : outcome :=
  and_then (WeakEqual_real prec emax (quaternion.w a) (quaternion.w b) COMPARE_EPS)
    (and_then (WeakEqual_real prec emax (quaternion.x a) (quaternion.x b) COMPARE_EPS)
       (and_then (WeakEqual_real prec emax (quaternion.y a) (quaternion.y b) COMPARE_EPS)
          (WeakEqual_real prec emax (quaternion.z a) (quaternion.z b) COMPARE_EPS))).

Definition WeakEqual_Mat33 (prec emax : Z) (a b : Mat33.t)
    (COMPARE_EPS : real) : outcome :=
  and_then (WeakEqual_real3 prec emax (Mat33.cols0 a) (Mat33.cols0 b) COMPARE_EPS)
    (and_then (WeakEqual_real3 prec emax (Mat33.cols1 a) (Mat33.cols1 b) COMPARE_EPS)
       (WeakEqual_real3 prec emax (Mat33.cols2 a) (Mat33.cols2 b) COMPARE_EPS)).

(** A real is not negative when [x < 0] is false; a NaN is so. *)
Definition not_negative (x : real) : bool := negb (SFltb x (S754_zero false)).

End UnitTesting.

(** * Properties *)

(** ** Machine integers *)


Lemma wrap_mod (w z : Z) : 0 < w -> wrap w z mod 2 ^ w = z mod 2 ^ w.
Proof.
  intros Hw. unfold wrap. cbv zeta.
  assert (0 < 2 ^ w) by (apply Z.pow_pos_nonneg; lia).
  destruct (z mod 2 ^ w <? 2 ^ (w - 1)).
  - apply Z.mod_mod. lia.
  - replace (z mod 2 ^ w - 2 ^ w) with (z mod 2 ^ w + (-1) * 2 ^ w) by lia.
    rewrite Z_mod_plus_full. apply Z.mod_mod. lia.
Qed.

(** The conversion keeps the [w] low bits. *)
Lemma wrap_testbit (w z j : Z) :
  0 < w -> j < w -> Z.testbit (wrap w z) j = Z.testbit z j.
Proof.
  intros Hw Hj.
  rewrite <- (Z.mod_pow2_bits_low (wrap w z) w j) by assumption.
  rewrite wrap_mod by assumption.
  apply Z.mod_pow2_bits_low. assumption.
Qed.

Lemma to_short_testbit (z j : Z) :
  j < 16 -> Z.testbit (to_short z) j = Z.testbit z j.
Proof. intros Hj. apply wrap_testbit; lia. Qed.

Lemma wrap_range (w z : Z) :
  0 < w -> - 2 ^ (w - 1) <= wrap w z < 2 ^ (w - 1).
Proof.
  intros Hw. unfold wrap. cbv zeta.
  assert (H2 : 2 ^ w = 2 * 2 ^ (w - 1)).
  { replace w with (1 + (w - 1)) at 1 by lia.
    rewrite Z.pow_add_r by lia. reflexivity. }
  assert (0 < 2 ^ (w - 1)) by (apply Z.pow_pos_nonneg; lia).
  pose proof (Z.mod_pos_bound z (2 ^ w) ltac:(lia)) as Hb.
  destruct (Z.ltb_spec (z mod 2 ^ w) (2 ^ (w - 1))); lia.
Qed.

Lemma to_short_range (z : Z) : is_short (to_short z).
Proof. pose proof (wrap_range 16 z ltac:(lia)) as H. unfold is_short, to_short. simpl in H. lia. Qed.

(** A value already in range is not changed by the conversion. *)
Lemma wrap_id (w z : Z) :
  0 < w -> - 2 ^ (w - 1) <= z < 2 ^ (w - 1) -> wrap w z = z.
Proof.
  intros Hw Hz. unfold wrap. cbv zeta.
  assert (H2 : 2 ^ w = 2 * 2 ^ (w - 1)).
  { replace w with (1 + (w - 1)) at 1 by lia.
    rewrite Z.pow_add_r by lia. reflexivity. }
  assert (0 < 2 ^ (w - 1)) by (apply Z.pow_pos_nonneg; lia).
  destruct (Z_lt_le_dec z 0) as [Hneg | Hpos].
  - assert (Hm : z mod 2 ^ w = z + 2 ^ w).
    { symmetry. apply (Z.mod_unique_pos z (2 ^ w) (-1)); lia. }
    rewrite Hm. destruct (Z.ltb_spec (z + 2 ^ w) (2 ^ (w - 1))); lia.
  - rewrite Z.mod_small by lia.
    destruct (Z.ltb_spec z (2 ^ (w - 1))); lia.
Qed.

Lemma to_short_id (z : Z) : is_short z -> to_short z = z.
Proof. intros Hz. apply wrap_id; [lia | unfold is_short in Hz; simpl; lia]. Qed.

(** The size of a container converted to [int] is never above the size. *)
Lemma to_int_of_nat_le (n : nat) : to_int (Z.of_nat n) <= Z.of_nat n.
Proof.
  unfold to_int, wrap. cbv zeta.
  assert (0 < 2 ^ 32) by lia.
  pose proof (Z.mod_le (Z.of_nat n) (2 ^ 32) ltac:(lia) ltac:(lia)).
  destruct (Z.of_nat n mod 2 ^ 32 <? 2 ^ (32 - 1)); lia.
Qed.


(** ** Floating point *)


Lemma float_add_comm (x y : float) : float_add x y = float_add y x.
Proof.
  unfold float_add.
  destruct x as [sx | sx | | sx mx ex], y as [sy | sy | | sy my ey];
    try reflexivity;
    try (destruct sx, sy; reflexivity).
  unfold SFadd. rewrite (Z.min_comm ey ex).
  f_equal. apply Z.add_comm.
Qed.

Lemma SFcompare_refl (x : spec_float) :
  is_nan x = false -> SFcompare x x = Some Eq.
Proof.
  destruct x as [s | s | | s m e]; simpl; intros Hn;
    try discriminate; try reflexivity.
  - destruct s; reflexivity.
  - destruct s; rewrite Z.compare_refl.
    + change (Pos.compare_cont Eq m m) with (Pos.compare m m).
      rewrite Pos.compare_refl. reflexivity.
    + change (Pos.compare_cont Eq m m) with (Pos.compare m m).
      rewrite Pos.compare_refl. reflexivity.
Qed.

(** [x == x] holds exactly when [x] is not a NaN. *)
Lemma float_eq_refl (x : spec_float) : float_eq x x = negb (is_nan x).
Proof.
  unfold float_eq, SFeqb.
  destruct (is_nan x) eqn:Hn.
  - destruct x; try discriminate. reflexivity.
  - rewrite SFcompare_refl by assumption. reflexivity.
Qed.


(** ** Bit-level facts used by the family/mask gate *)





Section FamilyGate.

Context {ChContactable ChCollisionShape : Type}.

Local Abbreviation Model := (ChCollisionModel ChContactable ChCollisionShape).

(** Every setter of the family group leaves a [short int] in the field. *)
Lemma SetFamilyGroup_short (group : Z) (m : Model) :
  is_short (GetFamilyGroup (SetFamilyGroup group m)).
Proof. apply to_short_range. Qed.

Lemma SetFamilyMask_short (mask : Z) (m : Model) :
  is_short (GetFamilyMask (SetFamilyMask mask m)).
Proof. apply to_short_range. Qed.

(** No [short int] is 0xFFFF, whatever stored it. *)
Lemma short_mask_never_65535 (m : Model) :
  is_short (family_mask m) -> GetFamilyMask m <> 65535.
Proof. unfold is_short, GetFamilyMask. lia. Qed.





(** C1: the contact gate is symmetric, [CanCollide A B] is
    [CanCollide B A] for every two collision models. *)
Theorem CanCollide_symmetric (A B : Model) : CanCollide A B = CanCollide B A.
Proof. unfold CanCollide. apply andb_comm. Qed.


(** C3, as amended: a new model has all sixteen bits of its family mask
    set, so that [GetFamilyMask()], a [short int], is -1 and agrees with
    0xFFFF on the low sixteen bits, and it belongs to family 0:
    [GetFamilyGroup()] is 1. *)
Theorem new_model_family (env marg : double) :
  let m : Model := ChCollisionModel_new env marg in
  GetFamilyMask m = -1
  /\ Z.land (GetFamilyMask m) 65535 = 65535
  /\ popcount16 (GetFamilyMask m) = 16%nat
  /\ GetFamilyGroup m = 1
  /\ Z.testbit (GetFamilyGroup m) 0 = true
  /\ popcount16 (GetFamilyGroup m) = 1%nat.
Proof. cbv zeta. repeat split; vm_compute; reflexivity. Qed.

(** C7: for a family k in 0..15, after
    [SetFamilyMaskNoCollisionWithFamily(k)] the query
    [GetFamilyMaskDoesCollisionWithFamily(k)] is false, after a following
    [SetFamilyMaskDoCollisionWithFamily(k)] it is true, and either setter
    leaves the other fifteen bits of the mask as they were. *)
Theorem family_mask_bit_toggle (k : Z) (m : Model) :
  0 <= k <= 15 ->
  GetFamilyMaskDoesCollisionWithFamily k
    (SetFamilyMaskNoCollisionWithFamily k m) = false
  /\ GetFamilyMaskDoesCollisionWithFamily k
       (SetFamilyMaskDoCollisionWithFamily k
          (SetFamilyMaskNoCollisionWithFamily k m)) = true
  /\ (forall j, 0 <= j <= 15 -> j <> k ->
        Z.testbit (GetFamilyMask (SetFamilyMaskNoCollisionWithFamily k m)) j
        = Z.testbit (GetFamilyMask m) j
        /\ Z.testbit (GetFamilyMask (SetFamilyMaskDoCollisionWithFamily k m)) j
           = Z.testbit (GetFamilyMask m) j).
Proof.
  intros Hk.
  unfold GetFamilyMaskDoesCollisionWithFamily,
    SetFamilyMaskNoCollisionWithFamily, SetFamilyMaskDoCollisionWithFamily,
    SetFamilyMask, GetFamilyMask.
  cbn [family_mask].
  split; [| split].
  - rewrite to_short_testbit by lia. apply Z.clearbit_eq.
  - rewrite to_short_testbit by lia. apply Z.setbit_eq. lia.
  - intros j Hj Hjk. rewrite !to_short_testbit by lia. split.
    + apply Z.clearbit_neq. congruence.
    + apply Z.setbit_neq; [lia | congruence].
Qed.

End FamilyGate.

(** ** The shape registry *)

Section Registry.

Context {ChContactable ChCollisionShape ChVector ChMatrix33 ChLinePath : Type}.
Context {Derived : Type}.
Context `{Backend : ChCollisionBackend ChContactable ChCollisionShape ChVector Derived}.

Local Abbreviation Model := (ChCollisionModel ChContactable ChCollisionShape).

(** An index below [GetNumShapes()] is below the length of the vector. *)
Lemma GetNumShapes_le_length (m : Model) :
  GetNumShapes m <= Z.of_nat (length (m_shapes m)).
Proof. apply to_int_of_nat_le. Qed.

(** Outside the bounds of the vector the subscript is undefined. *)
Lemma GetShape_out_of_range (index : Z) (m : Model) :
  index < 0 \/ Z.of_nat (length (m_shapes m)) <= index ->
  GetShape index m = None.
Proof.
  intros Hout. unfold GetShape.
  destruct (Z.ltb_spec index 0) as [Hneg | Hpos]; [reflexivity |].
  apply lookup_ge_None_2. lia.
Qed.

(** C4: [AddPoint(r, p)] leaves the object, and with it the shape
    registry, as [AddSphere(r, p)] leaves it: the same shapes at the same
    positions. *)
Theorem AddPoint_registry_as_AddSphere (radius : double) (pos : ChVector)
    (this : Derived) :
  snd (AddPoint radius pos this) = snd (AddSphere radius pos this)
  /\ m_shapes (base (snd (AddPoint radius pos this)))
     = m_shapes (base (snd (AddSphere radius pos this)))
  /\ GetNumShapes (base (snd (AddPoint radius pos this)))
     = GetNumShapes (base (snd (AddSphere radius pos this)))
  /\ (forall index : Z,
        GetShape index (base (snd (AddPoint radius pos this)))
        = GetShape index (base (snd (AddSphere radius pos this)))).
Proof. unfold AddPoint. cbn [snd]. auto. Qed.

(** C5: the default [Add2Dpath] returns [true] and adds no shape: the
    object, the registry and [GetNumShapes()] are as before the call. *)
Theorem Add2Dpath_default_no_op (mpath : option ChLinePath) (pos : ChVector)
    (rot : ChMatrix33) (thickness : double) (this : Derived) :
  fst (Add2Dpath mpath pos rot thickness this) = true
  /\ snd (Add2Dpath mpath pos rot thickness this) = this
  /\ m_shapes (base (snd (Add2Dpath mpath pos rot thickness this)))
     = m_shapes (base this)
  /\ GetNumShapes (base (snd (Add2Dpath mpath pos rot thickness this)))
     = GetNumShapes (base this).
Proof. unfold Add2Dpath. cbn [fst snd]. auto. Qed.

(** C8: for an index with [0 <= index < GetNumShapes()], [GetShape(index)]
    is defined and is the shape at that position of the registry. *)
Theorem GetShape_in_range (index : Z) (m : Model) :
  0 <= index < GetNumShapes m ->
  exists shape : ChCollisionShape,
    GetShape index m = Some shape
    /\ m_shapes m !! Z.to_nat index = Some shape.
Proof.
  intros [Hlo Hhi].
  pose proof (GetNumShapes_le_length m) as Hlen.
  destruct (lookup_lt_is_Some_2 (m_shapes m) (Z.to_nat index)) as [shape Hs];
    [lia |].
  exists shape. split; [| exact Hs].
  unfold GetShape.
  destruct (Z.ltb_spec index 0) as [Hneg | Hpos]; [lia | exact Hs].
Qed.

(** C9: whatever [AddSphere] returns, [AddPoint] returns [true]; so it
    does for a backend whose [AddSphere] returns [false]. *)
Theorem AddPoint_reports_success (radius : double) (pos : ChVector)
    (this : Derived) (supported : bool) :
  fst (AddSphere radius pos this) = supported ->
  fst (AddPoint radius pos this) = true.
Proof. intros _. reflexivity. Qed.

End Registry.

(** A sphere added to the backend with spheres is the last of the
    registry. *)
Lemma SphereModel_AddSphere_last (radius : double) (pos : Vector3)
    (this : SphereModel) :
  m_shapes (base (snd (AddSphere radius pos this)))
    !! length (m_shapes (base this))
  = Some (SphereShape radius pos).
Proof.
  cbn. rewrite lookup_app_r by lia.
  replace (length (m_shapes (sphere_base this))
           - length (m_shapes (sphere_base this)))%nat with O by lia.
  reflexivity.
Qed.

(** ** Margin and envelope *)

Section Margins.

Context {ChContactable ChCollisionShape : Type}.

Local Abbreviation Model := (ChCollisionModel ChContactable ChCollisionShape).

(** The value returned is the sum of the two fields in either order. *)
Lemma suggested_full_margin_is_sum (m : Model) :
  GetSuggestedFullMargin m = float_add (GetSafeMargin m) (GetEnvelope m).
Proof.
  unfold GetSuggestedFullMargin, GetSafeMargin, GetEnvelope.
  apply float_add_comm.
Qed.

(** The comparison [==] of the two sides is true unless the sum is a NaN. *)
Lemma suggested_full_margin_compare (m : Model) :
  float_eq (GetSuggestedFullMargin m)
    (float_add (GetSafeMargin m) (GetEnvelope m))
  = negb (is_nan (float_add (GetSafeMargin m) (GetEnvelope m))).
Proof.
  unfold GetSuggestedFullMargin, GetSafeMargin, GetEnvelope.
  rewrite (float_add_comm (model_envelope m)). apply float_eq_refl.
Qed.

(** What the setters store. *)
Lemma GetSafeMargin_SetSafeMargin (d : double) (m : Model) :
  GetSafeMargin (SetSafeMargin d m) = double_to_float d.
Proof. reflexivity. Qed.

Lemma GetEnvelope_SetEnvelope (d : double) (m : Model) :
  GetEnvelope (SetEnvelope d m) = double_to_float d.
Proof. reflexivity. Qed.

(** The double nearest to 0.1 is not a float: rounding it to float and
    promoting it back gives another double. *)
Lemma double_tenth_not_float :
  is_double double_tenth
  /\ float_to_double (double_to_float double_tenth) <> double_tenth
  /\ float_eq (float_to_double (double_to_float double_tenth)) double_tenth
     = false.
Proof.
  split; [vm_compute; reflexivity |].
  split; [vm_compute; discriminate | vm_compute; reflexivity].
Qed.

(** C10: after [SetSafeMargin(d)], [GetSafeMargin()] is d rounded to
    float, and likewise for [SetEnvelope] and [GetEnvelope]; for some
    double d the value read back, promoted to double, differs from d. *)
Theorem margin_setters_narrow_to_float (m : Model) :
  (forall d : double,
     GetSafeMargin (SetSafeMargin d m) = double_to_float d
     /\ GetEnvelope (SetEnvelope d m) = double_to_float d)
  /\ (exists d : double,
        is_double d
        /\ float_to_double (GetSafeMargin (SetSafeMargin d m)) <> d
        /\ float_to_double (GetEnvelope (SetEnvelope d m)) <> d
        /\ float_eq (float_to_double (GetSafeMargin (SetSafeMargin d m))) d
           = false
        /\ float_eq (float_to_double (GetEnvelope (SetEnvelope d m))) d
           = false).
Proof.
  split.
  - intros d. split; reflexivity.
  - exists double_tenth.
    rewrite GetSafeMargin_SetSafeMargin, GetEnvelope_SetEnvelope.
    destruct double_tenth_not_float as (Hv & Hne & Hcmp).
    repeat split; assumption.
Qed.

End Margins.

(** ** The class evaluated on concrete models *)

(** A model of the backend with spheres, holding two spheres. *)
Lemma two_spheres_registry :
  m_shapes (base (snd (AddPoint double_half origin
                         (snd (AddSphere double_tenth origin
                                 (mkSphereModel new_model))))))
  = [SphereShape double_tenth origin; SphereShape double_half origin].
Proof. reflexivity. Qed.

(** On the backend without spheres [AddPoint] adds nothing. *)
Lemma AddPoint_unsupported_adds_nothing :
  AddPoint double_half origin (mkMeshModel new_model)
  = (true, mkMeshModel new_model).
Proof. reflexivity. Qed.

(** A double that is a float survives the setter; zero is one. *)
Lemma SetSafeMargin_half_and_zero :
  float_to_double (GetSafeMargin (SetSafeMargin double_half new_model))
  = double_half
  /\ GetSafeMargin (SetSafeMargin double_zero new_model) = float_zero
  /\ GetSuggestedFullMargin
       (SetEnvelope double_zero (SetSafeMargin double_zero new_model))
     = float_zero.
Proof. repeat split; vm_compute; reflexivity. Qed.

(** Family 15 takes the sign bit of the [short int]. *)
Lemma SetFamily_15_sign_bit :
  GetFamilyGroup (SetFamily 15 new_model) = -32768
  /\ GetFamilyMaskDoesCollisionWithFamily 15 new_model = true
  /\ CanCollide (SetFamily 15 new_model) new_model = true.
Proof. repeat split; vm_compute; reflexivity. Qed.


(** C3, counterexample: the family mask of a new model, a [short int],
    is not 0xFFFF. *)
Lemma new_model_mask_not_65535 : GetFamilyMask new_model <> 65535.
Proof. vm_compute. discriminate. Qed.

(** C7, witness: family 3 on a new model. *)
Lemma family_mask_bit_toggle_witness :
  0 <= 3 <= 15
  /\ GetFamilyMaskDoesCollisionWithFamily 3
       (SetFamilyMaskNoCollisionWithFamily 3 new_model) = false
  /\ GetFamilyMaskDoesCollisionWithFamily 3
       (SetFamilyMaskDoCollisionWithFamily 3
          (SetFamilyMaskNoCollisionWithFamily 3 new_model)) = true.
Proof.
  assert (H : 0 <= 3 <= 15) by lia.
  split; [exact H |].
  destruct (family_mask_bit_toggle 3 new_model H) as (Hno & Hdo & _).
  split; [exact Hno | exact Hdo].
Defined.

(** C8, witness: the second of two spheres. *)
Lemma GetShape_in_range_witness :
  0 <= 1 < GetNumShapes
             (base (snd (AddSphere double_half origin
                           (snd (AddSphere double_tenth origin
                                   (mkSphereModel new_model))))))
  /\ exists shape : Shape,
       GetShape 1
         (base (snd (AddSphere double_half origin
                       (snd (AddSphere double_tenth origin
                               (mkSphereModel new_model))))))
       = Some shape
       /\ m_shapes
            (base (snd (AddSphere double_half origin
                          (snd (AddSphere double_tenth origin
                                  (mkSphereModel new_model))))))
            !! Z.to_nat 1
          = Some shape.
Proof.
  assert (H : 0 <= 1 < GetNumShapes
                (base (snd (AddSphere double_half origin
                              (snd (AddSphere double_tenth origin
                                      (mkSphereModel new_model)))))))
    by (vm_compute; split; [discriminate | reflexivity]).
  split; [exact H |].
  exact (GetShape_in_range 1 _ H).
Defined.

(** C9, witness: the backend without spheres. *)
Lemma AddPoint_reports_success_witness :
  fst (AddSphere double_half origin (mkMeshModel new_model)) = false
  /\ fst (AddPoint double_half origin (mkMeshModel new_model)) = true.
Proof.
  assert (H : fst (AddSphere double_half origin (mkMeshModel new_model))
              = false) by reflexivity.
  split; [exact H |].
  exact (AddPoint_reports_success double_half origin
           (mkMeshModel new_model) false H).
Defined.

(** * More properties of the class *)

(** ** Rounding to a format *)

Section Rounding.

Variables prec emax : Z.

Lemma shr_1_nonneg (r : shr_record) : 0 <= shr_m r -> 0 <= shr_m (shr_1 r).
Proof.
  destruct r as [m r s]. cbn [shr_m]. intros Hm.
  destruct m as [| p | p]; [cbn; lia | | lia].
  destruct p; cbn; lia.
Qed.

Lemma iter_pos_invariant {A : Type} (P : A -> Prop) (f : A -> A) :
  (forall a, P a -> P (f a)) ->
  forall (p : positive) (a : A), P a -> P (SpecFloat.iter_pos f p a).
Proof.
  intros Hf. induction p as [p IH | p IH |]; intros a Ha;
    cbn [SpecFloat.iter_pos]; auto.
Qed.

Lemma shr_nonneg (r : shr_record) (e n : Z) :
  0 <= shr_m r -> 0 <= shr_m (fst (shr r e n)).
Proof.
  intros Hr. unfold shr. destruct n as [| p | p]; cbn [fst]; try assumption.
  apply (iter_pos_invariant (fun r => 0 <= shr_m r));
    [apply shr_1_nonneg | assumption].
Qed.

Lemma shr_fexp_nonneg (m e : Z) (l : location) :
  0 <= m -> 0 <= shr_m (fst (shr_fexp prec emax m e l)).
Proof.
  intros Hm. unfold shr_fexp. apply shr_nonneg.
  destruct l as [| []]; cbn; assumption.
Qed.

Lemma round_nearest_even_nonneg (m : Z) (l : location) :
  0 <= m -> 0 <= round_nearest_even m l.
Proof.
  intros Hm. unfold round_nearest_even.
  destruct l as [| []]; try lia. destruct (Z.even m); lia.
Qed.

(** Rounding a mantissa that is not negative gives a zero, a finite
    datum or an infinity, of the sign asked for. *)
Lemma binary_round_aux_sign (sx : bool) (mx ex : Z) (lx : location) :
  0 <= mx -> float_sign (binary_round_aux prec emax sx mx ex lx) = Some sx.
Proof.
  intros Hm. unfold binary_round_aux.
  pose proof (shr_fexp_nonneg mx ex lx Hm) as H1.
  destruct (shr_fexp prec emax mx ex lx) as [mrs' e']. cbn [fst] in H1.
  pose proof (shr_fexp_nonneg
                (round_nearest_even (shr_m mrs') (loc_of_shr_record mrs'))
                e' loc_Exact (round_nearest_even_nonneg _ _ H1)) as H2.
  destruct (shr_fexp prec emax _ e' loc_Exact) as [mrs'' e''].
  cbn [fst] in H2.
  destruct (shr_m mrs'') as [| p | p]; [reflexivity | | lia].
  destruct (e'' <=? emax - prec); reflexivity.
Qed.

Lemma binary_round_sign (sx : bool) (mx : positive) (ex : Z) :
  float_sign (binary_round prec emax sx mx ex) = Some sx.
Proof.
  unfold binary_round.
  destruct (shl_align mx ex _) as [mz ez].
  apply binary_round_aux_sign. lia.
Qed.

Lemma float_sign_not_nan (x : spec_float) (s : bool) :
  float_sign x = Some s -> is_nan x = false.
Proof. destruct x; (discriminate || reflexivity). Qed.

Lemma binary_normalize_not_nan (m e : Z) (szero : bool) :
  is_nan (binary_normalize prec emax m e szero) = false.
Proof.
  destruct m as [| p | p]; [reflexivity | |];
    apply (float_sign_not_nan _ _ (binary_round_sign _ p e)).
Qed.

(** The sign asked for has no part in the rounding of the mantissa. *)
Lemma binary_round_aux_opp (s : bool) (m e : Z) (l : location) :
  binary_round_aux prec emax (negb s) m e l
  = SFopp (binary_round_aux prec emax s m e l).
Proof.
  unfold binary_round_aux.
  destruct (shr_fexp prec emax m e l) as [mrs' e'].
  destruct (shr_fexp prec emax _ e' loc_Exact) as [mrs'' e''].
  destruct (shr_m mrs''); try reflexivity.
  destruct (e'' <=? emax - prec); reflexivity.
Qed.

Lemma binary_round_opp (s : bool) (m : positive) (e : Z) :
  binary_round prec emax (negb s) m e = SFopp (binary_round prec emax s m e).
Proof.
  unfold binary_round. destruct (shl_align m e _) as [mz ez].
  apply binary_round_aux_opp.
Qed.

Lemma SFabs_opp (x : spec_float) : SFabs (SFopp x) = SFabs x.
Proof. destruct x; reflexivity. Qed.

Lemma binary_normalize_opp (z e : Z) :
  SFabs (binary_normalize prec emax (- z) e false)
  = SFabs (binary_normalize prec emax z e false).
Proof.
  pose proof (fun p => binary_round_opp false p e) as H. cbn [negb] in H.
  destruct z as [| p | p]; [reflexivity | |].
  - change (- Z.pos p) with (Z.neg p). unfold binary_normalize.
    rewrite H. apply SFabs_opp.
  - change (- Z.neg p) with (Z.pos p). unfold binary_normalize.
    rewrite H. symmetry. apply SFabs_opp.
Qed.

(** [fabs(x - y)] is [fabs(y - x)]. *)
Lemma SFabs_SFsub_comm (x y : spec_float) :
  SFabs (SFsub prec emax x y) = SFabs (SFsub prec emax y x).
Proof.
  destruct x as [sx | sx | | sx mx ex], y as [sy | sy | | sy my ey];
    try reflexivity;
    try (destruct sx, sy; reflexivity).
  unfold SFsub. rewrite (Z.min_comm ey ex).
  rewrite <- binary_normalize_opp. f_equal. f_equal. lia.
Qed.

Lemma SFeqb_finite_inv (s1 s2 : bool) (m1 m2 : positive) (e1 e2 : Z) :
  SFeqb (S754_finite s1 m1 e1) (S754_finite s2 m2 e2) = true ->
  s1 = s2 /\ m1 = m2 /\ e1 = e2.
Proof.
  unfold SFeqb, SFcompare.
  destruct s1, s2; try discriminate;
    destruct (Z.compare_spec e1 e2); try discriminate;
    change (Pos.compare_cont Eq m1 m2) with (Pos.compare m1 m2);
    destruct (Pos.compare_spec m1 m2); try discriminate; auto.
Qed.

(** The difference of two reals that compare equal is a zero, or a NaN
    for two infinities. *)
Lemma SFeqb_SFsub (x y : spec_float) :
  SFeqb x y = true ->
  match SFsub prec emax x y with
  | S754_zero _ | S754_nan => True
  | _ => False
  end.
Proof.
  destruct x as [sx | sx | | sx mx ex], y as [sy | sy | | sy my ey];
    try discriminate;
    try (destruct sx, sy; (discriminate || (intros _; exact I))).
  intros H. apply SFeqb_finite_inv in H as (-> & -> & ->).
  unfold SFsub. rewrite Z.sub_diag. exact I.
Qed.

End Rounding.

(** ** Promotion of a float and conversion back *)

Lemma iter_pos_nat {A : Type} (f : A -> A) (p : positive) (x : A) :
  SpecFloat.iter_pos f p x = Nat.iter (Pos.to_nat p) f x.
Proof.
  revert x. induction p as [p IH | p IH |]; intros x;
    cbn [SpecFloat.iter_pos].
  - rewrite !IH. rewrite Pos2Nat.inj_xI.
    replace (S (2 * Pos.to_nat p))
      with (Pos.to_nat p + S (Pos.to_nat p))%nat by lia.
    rewrite Nat.iter_add. f_equal. rewrite Nat.iter_succ_r. reflexivity.
  - rewrite !IH. rewrite Pos2Nat.inj_xO.
    replace (2 * Pos.to_nat p)%nat
      with (Pos.to_nat p + Pos.to_nat p)%nat by lia.
    rewrite Nat.iter_add. reflexivity.
  - reflexivity.
Qed.

Lemma digits2_shift_nat (n : nat) (m : positive) :
  Z.pos (digits2_pos (Nat.iter n xO m)) = Z.pos (digits2_pos m) + Z.of_nat n.
Proof.
  induction n as [| n IH]; [cbn; lia |].
  rewrite Nat.iter_succ. cbn [digits2_pos]. rewrite Pos2Z.inj_succ, IH. lia.
Qed.

Lemma digits2_shift (p m : positive) :
  Z.pos (digits2_pos (Pos.iter xO m p)) = Z.pos (digits2_pos m) + Z.pos p.
Proof.
  rewrite Pos2Nat.inj_iter.
  change (nat_rect (fun _ => positive) m (fun _ => xO) (Pos.to_nat p))
    with (Nat.iter (Pos.to_nat p) xO m).
  rewrite digits2_shift_nat, positive_nat_Z. reflexivity.
Qed.

Lemma shr_shift_nat (n : nat) (m : positive) :
  Nat.iter n shr_1 (Build_shr_record (Z.pos (Nat.iter n xO m)) false false)
  = Build_shr_record (Z.pos m) false false.
Proof.
  induction n as [| n IH]; [reflexivity |].
  rewrite Nat.iter_succ_r, Nat.iter_succ. cbn [shr_1 orb]. exact IH.
Qed.

(** Shifting left by p bits and right again loses nothing. *)
Lemma shr_shift (p m : positive) :
  SpecFloat.iter_pos shr_1 p
    (Build_shr_record (Z.pos (Pos.iter xO m p)) false false)
  = Build_shr_record (Z.pos m) false false.
Proof. rewrite iter_pos_nat, Pos2Nat.inj_iter. apply shr_shift_nat. Qed.

Lemma float_bounded_inv (m : positive) (e : Z) :
  bounded 24 128 m e = true ->
  Z.max (Z.pos (digits2_pos m) + e - 24) (-149) = e /\ e <= 104.
Proof.
  unfold bounded, canonical_mantissa, fexp, emin. intros H.
  apply andb_prop in H as [H1 H2].
  apply Z.eqb_eq in H1. apply Z.leb_le in H2. lia.
Qed.

(** The promotion of a finite float: the mantissa is shifted to 53 bits. *)
Lemma float_to_double_finite (s : bool) (m : positive) (e : Z) :
  bounded 24 128 m e = true ->
  float_to_double (S754_finite s m e)
  = S754_finite s (Pos.iter xO m (Z.to_pos (53 - Z.pos (digits2_pos m))))
      (Z.pos (digits2_pos m) + e - 53).
Proof.
  intros Hv. apply float_bounded_inv in Hv as [Hc He].
  pose proof (Pos2Z.is_pos (digits2_pos m)) as Hpos.
  unfold float_to_double, binary_round.
  assert (Hf : fexp 53 1024 (Z.pos (digits2_pos m) + e)
               = Z.pos (digits2_pos m) + e - 53)
    by (unfold fexp, emin; lia).
  rewrite Hf. unfold shl_align.
  destruct (Z.pos (digits2_pos m) + e - 53 - e) as [| q | q] eqn:Hq;
    [lia | lia |].
  assert (Hqq : q = Z.to_pos (53 - Z.pos (digits2_pos m))) by lia.
  subst q. set (k := Z.to_pos (53 - Z.pos (digits2_pos m))).
  assert (Hk : Z.pos k = 53 - Z.pos (digits2_pos m)) by (unfold k; lia).
  unfold binary_round_aux, shr_fexp. cbn [Zdigits2].
  rewrite digits2_shift.
  assert (Hf2 : fexp 53 1024
                  (Z.pos (digits2_pos m) + Z.pos k
                   + (Z.pos (digits2_pos m) + e - 53))
                - (Z.pos (digits2_pos m) + e - 53) = 0)
    by (unfold fexp, emin; lia).
  rewrite Hf2.
  cbn [shr shr_record_of_loc shr_m loc_of_shr_record round_nearest_even
       Zdigits2].
  rewrite digits2_shift, Hf2. cbn [shr shr_m].
  destruct (Z.leb_spec (Z.pos (digits2_pos m) + e - 53) (1024 - 53));
    [reflexivity | lia].
Qed.

(** A float promoted to double and converted back is the float. *)
Lemma double_to_float_of_float (f : float) :
  is_float f -> double_to_float (float_to_double f) = f.
Proof.
  destruct f as [s | s | | s m e]; try reflexivity.
  unfold is_float, valid_binary. intros Hv.
  rewrite float_to_double_finite by assumption.
  apply float_bounded_inv in Hv as [Hc He].
  pose proof (Pos2Z.is_pos (digits2_pos m)) as Hpos.
  set (k := Z.to_pos (53 - Z.pos (digits2_pos m))).
  assert (Hk : Z.pos k = 53 - Z.pos (digits2_pos m)) by (unfold k; lia).
  unfold double_to_float, binary_round.
  rewrite digits2_shift.
  assert (Hf : fexp 24 128
                 (Z.pos (digits2_pos m) + Z.pos k
                  + (Z.pos (digits2_pos m) + e - 53)) = e)
    by (unfold fexp, emin; lia).
  rewrite Hf. unfold shl_align.
  destruct (e - (Z.pos (digits2_pos m) + e - 53)) as [| q | q] eqn:Hq;
    [lia | | lia].
  assert (Hqq : q = k) by lia.
  unfold binary_round_aux, shr_fexp. cbn [Zdigits2].
  rewrite digits2_shift, Hf, Hq, Hqq.
  cbn [shr_record_of_loc]. unfold shr at 1. rewrite shr_shift.
  cbn [shr_m loc_of_shr_record round_nearest_even Zdigits2].
  assert (Hf2 : fexp 24 128
                  (Z.pos (digits2_pos m)
                   + (Z.pos (digits2_pos m) + e - 53 + Z.pos k))
                - (Z.pos (digits2_pos m) + e - 53 + Z.pos k) = 0)
    by (unfold fexp, emin; lia).
  rewrite Hf2. cbn [shr shr_record_of_loc shr_m].
  replace (Z.pos (digits2_pos m) + e - 53 + Z.pos k) with e by lia.
  destruct (Z.leb_spec e (128 - 24)); [reflexivity | lia].
Qed.

(** The promotion of a float is a double. *)
Lemma float_to_double_valid (f : float) :
  is_float f -> is_double (float_to_double f).
Proof.
  destruct f as [s | s | | s m e]; try (intros _; reflexivity).
  unfold is_float. cbn [valid_binary]. intros Hv.
  rewrite float_to_double_finite by assumption.
  apply float_bounded_inv in Hv as [Hc He].
  pose proof (Pos2Z.is_pos (digits2_pos m)) as Hpos.
  unfold is_double, valid_binary, bounded, canonical_mantissa.
  rewrite digits2_shift.
  assert (Hk : Z.pos (Z.to_pos (53 - Z.pos (digits2_pos m)))
               = 53 - Z.pos (digits2_pos m)) by lia.
  rewrite Hk. apply andb_true_intro. split.
  - apply Z.eqb_eq. unfold fexp, emin. lia.
  - apply Z.leb_le. lia.
Qed.

(** ** What a rounding returns is a datum of the format *)

Lemma Zdigits2_nonneg (m : Z) : 0 <= Zdigits2 m.
Proof. destruct m; cbn; lia. Qed.

(** A shift right by one bit takes one digit off. *)
Lemma Zdigits2_shr_1 (r : shr_record) :
  0 <= shr_m r ->
  0 <= shr_m (shr_1 r)
  /\ Zdigits2 (shr_m (shr_1 r)) = Z.max 0 (Zdigits2 (shr_m r) - 1).
Proof.
  destruct r as [m r s]. cbn [shr_m]. intros Hm.
  destruct m as [| p | p]; [cbn; lia | | lia].
  destruct p as [p | p |]; cbn [shr_1 shr_m Zdigits2 digits2_pos];
    rewrite ?Pos2Z.inj_succ; lia.
Qed.

Lemma Zdigits2_shr_nat (n : nat) (r : shr_record) :
  0 <= shr_m r ->
  0 <= shr_m (Nat.iter n shr_1 r)
  /\ Zdigits2 (shr_m (Nat.iter n shr_1 r))
     = Z.max 0 (Zdigits2 (shr_m r) - Z.of_nat n).
Proof.
  intros Hr. induction n as [| n [IH1 IH2]].
  - cbn [Nat.iter nat_rect]. pose proof (Zdigits2_nonneg (shr_m r)). lia.
  - rewrite Nat.iter_succ.
    destruct (Zdigits2_shr_1 _ IH1) as [H1 H2].
    split; [exact H1 |]. rewrite H2, IH2. lia.
Qed.

Lemma digits2_pos_succ (p : positive) :
  (digits2_pos p <= digits2_pos (Pos.succ p))%positive.
Proof. induction p as [p IH | p IH |]; simpl; lia. Qed.

Lemma Zdigits2_succ (m : Z) : 0 <= m -> Zdigits2 m <= Zdigits2 (m + 1).
Proof.
  intros Hm. destruct m as [| p | p]; [simpl; lia | | lia].
  replace (Z.pos p + 1) with (Z.pos (Pos.succ p)) by lia.
  cbn [Zdigits2]. pose proof (digits2_pos_succ p). lia.
Qed.

Lemma round_nearest_even_cases (m : Z) (l : location) :
  round_nearest_even m l = m \/ round_nearest_even m l = m + 1.
Proof.
  unfold round_nearest_even. destruct l as [| []]; auto.
  destruct (Z.even m); auto.
Qed.

Section Validity.

Variables prec emax : Z.
Hypothesis Hprec : 0 < prec.

(** A mantissa with too many digits for its exponent has, after the
    shift, the exponent of its digits. *)
Lemma shr_fexp_canonical (m e : Z) (l : location) :
  0 <= m -> e <= fexp prec emax (Zdigits2 m + e) ->
  0 <= shr_m (fst (shr_fexp prec emax m e l))
  /\ fexp prec emax (Zdigits2 (shr_m (fst (shr_fexp prec emax m e l)))
                     + snd (shr_fexp prec emax m e l))
     = snd (shr_fexp prec emax m e l).
Proof.
  intros Hm He. unfold shr_fexp.
  assert (Hrec : shr_m (shr_record_of_loc m l) = m)
    by (destruct l as [| []]; reflexivity).
  unfold shr.
  destruct (fexp prec emax (Zdigits2 m + e) - e) as [| p | p] eqn:Hn;
    cbn [fst snd]; rewrite ?Hrec.
  - split; [exact Hm | lia].
  - rewrite iter_pos_nat.
    destruct (Zdigits2_shr_nat (Pos.to_nat p) (shr_record_of_loc m l))
      as [H1 H2]; [rewrite Hrec; exact Hm |].
    split; [exact H1 |]. rewrite H2, Hrec, positive_nat_Z.
    pose proof (Zdigits2_nonneg m) as Hd.
    unfold fexp, emin in *. lia.
  - lia.
Qed.

Lemma binary_round_aux_valid (sx : bool) (mx ex : Z) (lx : location) :
  0 <= mx -> ex <= fexp prec emax (Zdigits2 mx + ex) ->
  valid_binary prec emax (binary_round_aux prec emax sx mx ex lx) = true.
Proof.
  intros Hm He. unfold binary_round_aux.
  destruct (shr_fexp_canonical mx ex lx Hm He) as [H1 H2].
  destruct (shr_fexp prec emax mx ex lx) as [mrs' e'].
  cbn [fst snd] in H1, H2.
  set (m1 := round_nearest_even (shr_m mrs') (loc_of_shr_record mrs')).
  assert (Hm1 : 0 <= m1 /\ Zdigits2 (shr_m mrs') <= Zdigits2 m1).
  { unfold m1.
    destruct (round_nearest_even_cases (shr_m mrs') (loc_of_shr_record mrs'))
      as [-> | ->]; [lia |].
    split; [lia | apply Zdigits2_succ, H1]. }
  destruct Hm1 as [Hm1 Hd1].
  assert (He1 : e' <= fexp prec emax (Zdigits2 m1 + e'))
    by (unfold fexp, emin in *; lia).
  destruct (shr_fexp_canonical m1 e' loc_Exact Hm1 He1) as [H3 H4].
  destruct (shr_fexp prec emax m1 e' loc_Exact) as [mrs'' e''].
  cbn [fst snd] in H3, H4.
  destruct (shr_m mrs'') as [| p | p]; [reflexivity | | lia].
  destruct (Z.leb_spec e'' (emax - prec)) as [Hle | Hgt]; [| reflexivity].
  cbn [valid_binary]. unfold bounded, canonical_mantissa.
  cbn [Zdigits2] in H4. rewrite H4, Z.eqb_refl. cbn [andb].
  apply Z.leb_le, Hle.
Qed.

(** Whatever the mantissa and the exponent, their rounding is a datum of
    the format. *)
Lemma binary_round_valid (sx : bool) (mx : positive) (ex : Z) :
  valid_binary prec emax (binary_round prec emax sx mx ex) = true.
Proof.
  unfold binary_round, shl_align.
  destruct (fexp prec emax (Z.pos (digits2_pos mx) + ex) - ex)
    as [| p | p] eqn:Hn.
  - apply binary_round_aux_valid; [lia |]. cbn [Zdigits2]. lia.
  - apply binary_round_aux_valid; [lia |]. cbn [Zdigits2]. lia.
  - apply binary_round_aux_valid; [lia |]. cbn [Zdigits2].
    rewrite digits2_shift.
    replace (Z.pos (digits2_pos mx) + Z.pos p
             + fexp prec emax (Z.pos (digits2_pos mx) + ex))
      with (Z.pos (digits2_pos mx) + ex) by lia.
    lia.
Qed.

End Validity.

(** The conversion of any double is a float. *)
Lemma double_to_float_valid (d : double) : is_float (double_to_float d).
Proof.
  destruct d as [s | s | | s m e]; try reflexivity.
  apply binary_round_valid. lia.
Qed.

(** A double is the promotion of a float exactly when it comes back from
    the conversion to float. *)
Lemma float_to_double_fixed (d : double) :
  float_to_double (double_to_float d) = d
  <-> exists f : float, is_float f /\ float_to_double f = d.
Proof.
  split.
  - intros Hd. exists (double_to_float d).
    split; [apply double_to_float_valid | exact Hd].
  - intros (f & Hf & <-). rewrite double_to_float_of_float by exact Hf.
    reflexivity.
Qed.

(** The sum of two floats is a NaN for a NaN operand and for two
    infinities of opposite signs, and for nothing else. *)
Lemma float_add_nan (x y : float) :
  is_nan (float_add x y)
  = is_nan x || is_nan y || opposite_infinities x y.
Proof.
  unfold float_add.
  destruct x as [sx | sx | | sx mx ex], y as [sy | sy | | sy my ey];
    try reflexivity;
    try (destruct sx, sy; reflexivity).
  unfold SFadd. cbn [is_nan opposite_infinities orb].
  apply binary_normalize_not_nan.
Qed.

(** ** The setters with a body in the class *)

Section Setters.

Context {ChContactable ChCollisionShape : Type}.

Local Abbreviation Model := (ChCollisionModel ChContactable ChCollisionShape).
Local Abbreviation Call := (@SetterCall ChContactable).

Lemma run_setter_frame (c : Call) (m : Model) :
  family_group (run_setter c m) = family_group m
  /\ family_mask (run_setter c m) = family_mask m
  /\ m_shapes (run_setter c m) = m_shapes m.
Proof. destruct c; repeat split; reflexivity. Qed.

Lemma run_setters_frame (cs : list Call) (m : Model) :
  family_group (run_setters cs m) = family_group m
  /\ family_mask (run_setters cs m) = family_mask m
  /\ m_shapes (run_setters cs m) = m_shapes m.
Proof.
  revert m. induction cs as [| c cs IH]; intros m; [repeat split |].
  cbn [run_setters].
  destruct (IH (run_setter c m)) as (Hg & Hk & Hs).
  destruct (run_setter_frame c m) as (Hg' & Hk' & Hs').
  repeat split; congruence.
Qed.

Lemma run_setters_app (cs cs' : list Call) (m : Model) :
  run_setters (cs ++ cs') m = run_setters cs' (run_setters cs m).
Proof.
  revert m. induction cs as [| c cs IH]; intros m; [reflexivity |].
  cbn [app run_setters]. apply IH.
Qed.

Lemma run_setters_keep_safe_margin (cs : list Call) (m : Model) :
  forallb (fun c => negb (sets_safe_margin c)) cs = true ->
  GetSafeMargin (run_setters cs m) = GetSafeMargin m.
Proof.
  revert m. induction cs as [| c cs IH]; intros m Hcs; [reflexivity |].
  cbn [forallb] in Hcs. apply andb_prop in Hcs as [Hc Hcs].
  cbn [run_setters]. rewrite IH by assumption.
  destruct c; (discriminate || reflexivity).
Qed.

Lemma run_setters_keep_envelope (cs : list Call) (m : Model) :
  forallb (fun c => negb (sets_envelope c)) cs = true ->
  GetEnvelope (run_setters cs m) = GetEnvelope m.
Proof.
  revert m. induction cs as [| c cs IH]; intros m Hcs; [reflexivity |].
  cbn [forallb] in Hcs. apply andb_prop in Hcs as [Hc Hcs].
  cbn [run_setters]. rewrite IH by assumption.
  destruct c; (discriminate || reflexivity).
Qed.

(** C6, as amended: [GetSuggestedFullMargin()] returns the sum
    [GetSafeMargin() + GetEnvelope()] for all values of the two fields,
    zero included, and the comparison [==] of the two is true unless one
    of the fields is a NaN or they are infinities of opposite signs. *)
Theorem suggested_full_margin_equals_sum (m : Model) :
  GetSuggestedFullMargin m = float_add (GetSafeMargin m) (GetEnvelope m)
  /\ float_eq (GetSuggestedFullMargin m)
       (float_add (GetSafeMargin m) (GetEnvelope m))
     = negb (is_nan (GetSafeMargin m) || is_nan (GetEnvelope m)
             || opposite_infinities (GetSafeMargin m) (GetEnvelope m)).
Proof.
  split; [apply suggested_full_margin_is_sum |].
  rewrite suggested_full_margin_compare, float_add_nan. reflexivity.
Qed.

(** X1: no sequence of calls of [SetSafeMargin], [SetEnvelope] and
    [SetContactable] changes the family group, the family mask or the
    shapes of the model. *)
Theorem setters_keep_family_and_shapes (cs : list Call) (m : Model) :
  GetFamilyGroup (run_setters cs m) = GetFamilyGroup m
  /\ GetFamilyMask (run_setters cs m) = GetFamilyMask m
  /\ m_shapes (run_setters cs m) = m_shapes m
  /\ GetNumShapes (run_setters cs m) = GetNumShapes m
  /\ (forall index : Z,
        GetShape index (run_setters cs m) = GetShape index m).
Proof.
  destruct (run_setters_frame cs m) as (Hg & Hk & Hs).
  unfold GetFamilyGroup, GetFamilyMask, GetNumShapes, GetShape.
  rewrite Hg, Hk, Hs. repeat split; reflexivity.
Qed.

(** X2: in a sequence of setter calls, [GetSafeMargin()] reads the
    argument of the last [SetSafeMargin], rounded to float, whatever was
    called before it and whatever other setters were called after it. *)
Theorem last_SetSafeMargin_is_read (cs cs' : list Call) (d : double)
    (m : Model) :
  forallb (fun c => negb (sets_safe_margin c)) cs' = true ->
  GetSafeMargin (run_setters (cs ++ CallSetSafeMargin d :: cs') m)
  = double_to_float d.
Proof.
  intros Hcs'. rewrite run_setters_app. cbn [run_setters run_setter].
  rewrite run_setters_keep_safe_margin by assumption. reflexivity.
Qed.

(** X3: in a sequence of setter calls, [GetEnvelope()] reads the
    argument of the last [SetEnvelope], rounded to float, whatever was
    called before it and whatever other setters were called after it. *)
Theorem last_SetEnvelope_is_read (cs cs' : list Call) (d : double)
    (m : Model) :
  forallb (fun c => negb (sets_envelope c)) cs' = true ->
  GetEnvelope (run_setters (cs ++ CallSetEnvelope d :: cs') m)
  = double_to_float d.
Proof.
  intros Hcs'. rewrite run_setters_app. cbn [run_setters run_setter].
  rewrite run_setters_keep_envelope by assumption. reflexivity.
Qed.

Lemma double_to_float_sign (d : double) :
  float_sign (double_to_float d) = float_sign d.
Proof.
  destruct d as [s | s | | s m e]; try reflexivity.
  apply binary_round_sign.
Qed.

(** X4: the margin and the envelope are stored with the sign of the
    argument; a NaN is stored only for a NaN argument. *)
Theorem setters_keep_sign (d : double) (m : Model) :
  float_sign (GetSafeMargin (SetSafeMargin d m)) = float_sign d
  /\ float_sign (GetEnvelope (SetEnvelope d m)) = float_sign d
  /\ is_nan (GetSafeMargin (SetSafeMargin d m)) = is_nan d
  /\ is_nan (GetEnvelope (SetEnvelope d m)) = is_nan d.
Proof.
  unfold GetSafeMargin, SetSafeMargin, GetEnvelope, SetEnvelope.
  cbn [model_safe_margin model_envelope].
  pose proof (double_to_float_sign d) as Hs.
  assert (Hn : is_nan (double_to_float d) = is_nan d).
  { destruct d as [s | s | | s mm e]; try reflexivity.
    apply (float_sign_not_nan _ s), binary_round_sign. }
  repeat split; assumption.
Qed.

(** X5: with an envelope of zero, of either sign, the full margin
    compares equal to the safe margin, unless that is a NaN. *)
Theorem zero_envelope_full_margin (s : bool) (m : Model) :
  float_eq (GetSuggestedFullMargin (SetEnvelope (S754_zero s) m))
    (GetSafeMargin m)
  = negb (is_nan (GetSafeMargin m)).
Proof.
  unfold GetSuggestedFullMargin, GetSafeMargin, SetEnvelope.
  cbn [model_envelope model_safe_margin double_to_float].
  destruct (model_safe_margin m) as [s' | s' | | s' mm e];
    try reflexivity.
  - destruct s, s'; reflexivity.
  - apply (float_eq_refl (S754_infinity s')).
  - apply (float_eq_refl (S754_finite s' mm e)).
Qed.

(** X6: the full margin is a NaN exactly when the envelope or the safe
    margin is one, or when they are infinities of opposite signs. *)
Theorem full_margin_nan (m : Model) :
  is_nan (GetSuggestedFullMargin m)
  = is_nan (GetEnvelope m) || is_nan (GetSafeMargin m)
    || opposite_infinities (GetEnvelope m) (GetSafeMargin m).
Proof.
  unfold GetSuggestedFullMargin, GetEnvelope, GetSafeMargin, float_add.
  destruct (model_envelope m) as [sx | sx | | sx mx ex],
    (model_safe_margin m) as [sy | sy | | sy my ey];
    try reflexivity;
    try (destruct sx, sy; reflexivity).
  unfold SFadd. cbn [is_nan opposite_infinities orb].
  apply binary_normalize_not_nan.
Qed.

(** X7: a margin that is a float is stored as it is: given to
    [SetSafeMargin] or [SetEnvelope] as a double, it is read back
    unchanged.  What the setters store is a float for every argument.  So
    the value read back, promoted to double, is the argument exactly when
    the argument is the promotion of a float. *)
Theorem float_margin_round_trip (m : Model) :
  (forall f : float,
     is_float f ->
     is_double (float_to_double f)
     /\ GetSafeMargin (SetSafeMargin (float_to_double f) m) = f
     /\ GetEnvelope (SetEnvelope (float_to_double f) m) = f)
  /\ (forall d : double,
        is_float (GetSafeMargin (SetSafeMargin d m))
        /\ is_float (GetEnvelope (SetEnvelope d m)))
  /\ (forall d : double,
        float_to_double (GetSafeMargin (SetSafeMargin d m)) = d
        <-> exists f : float, is_float f /\ float_to_double f = d)
  /\ (forall d : double,
        float_to_double (GetEnvelope (SetEnvelope d m)) = d
        <-> exists f : float, is_float f /\ float_to_double f = d).
Proof.
  unfold GetSafeMargin, SetSafeMargin, GetEnvelope, SetEnvelope.
  cbn [model_safe_margin model_envelope].
  split; [| split; [| split]].
  - intros f Hf. split; [apply float_to_double_valid, Hf |].
    split; apply double_to_float_of_float, Hf.
  - intros d. split; apply double_to_float_valid.
  - intros d. apply float_to_double_fixed.
  - intros d. apply float_to_double_fixed.
Qed.

(** X8: a model of fewer than 2^31 shapes reports their number. *)
Theorem GetNumShapes_is_size (m : Model) :
  Z.of_nat (length (m_shapes m)) < 2 ^ 31 ->
  GetNumShapes m = Z.of_nat (length (m_shapes m)).
Proof.
  intros Hlen. unfold GetNumShapes, to_int. apply wrap_id; [lia |].
  change (2 ^ (32 - 1)) with (2 ^ 31). lia.
Qed.

(** X9: in a model of fewer than 2^31 shapes, every stored shape is
    read by [GetShape] at its position, which is below [GetNumShapes()]. *)
Theorem stored_shape_is_read (i : nat) (shape : ChCollisionShape) (m : Model) :
  Z.of_nat (length (m_shapes m)) < 2 ^ 31 ->
  m_shapes m !! i = Some shape ->
  0 <= Z.of_nat i < GetNumShapes m
  /\ GetShape (Z.of_nat i) m = Some shape.
Proof.
  intros Hlen Hi.
  pose proof (lookup_lt_Some _ _ _ Hi) as Hlt.
  assert (Hn : GetNumShapes m = Z.of_nat (length (m_shapes m))).
  { unfold GetNumShapes, to_int. apply wrap_id; [lia |].
    change (2 ^ (32 - 1)) with (2 ^ 31). lia. }
  rewrite Hn. split; [lia |].
  unfold GetShape. destruct (Z.ltb_spec (Z.of_nat i) 0) as [Hneg | _]; [lia |].
  rewrite Nat2Z.id. exact Hi.
Qed.

End Setters.

(** ** Sequences of points *)

Section Points.

Context {ChContactable ChCollisionShape ChVector : Type}.
Context {Derived : Type}.
Context `{Backend : ChCollisionBackend ChContactable ChCollisionShape ChVector Derived}.

(** X10: a sequence of [AddPoint] calls leaves the object as the same
    sequence of [AddSphere] calls leaves it, and each of the calls
    returns [true]. *)
Theorem AddPoint_each_as_AddSphere_each (ps : list (double * ChVector))
    (this : Derived) :
  snd (AddPoint_each ps this) = snd (AddSphere_each ps this)
  /\ fst (AddPoint_each ps this) = replicate (length ps) true.
Proof.
  revert this. induction ps as [| p ps IH]; intros this; [split; reflexivity |].
  cbn [AddPoint_each AddSphere_each fst snd length replicate].
  unfold AddPoint at 1 2 3. cbn [fst snd].
  destruct (IH (snd (AddSphere (fst p) (snd p) this))) as [Hobj Hres].
  split; [exact Hobj | f_equal; exact Hres].
Qed.

End Points.

(** * The checks of the unit tests *)

Import UnitTesting.

Section Checks.

Variables prec emax : Z.

Lemma and_then_Returns (a b : outcome) :
  and_then a b = Returns <-> a = Returns /\ b = Returns.
Proof.
  destruct a as [| status]; cbn [and_then]; split.
  - intros Hb. split; [reflexivity | exact Hb].
  - intros [_ Hb]. exact Hb.
  - discriminate.
  - intros [Ha _]. discriminate.
Qed.

Lemma StrictEqual_real_Returns (x y : real) :
  StrictEqual_real x y = Returns <-> float_eq x y = true.
Proof.
  unfold StrictEqual_real. destruct (float_eq x y); cbn [negb]; split;
    (reflexivity || discriminate).
Qed.

Lemma WeakEqual_real_Returns (x y COMPARE_EPS : real) :
  WeakEqual_real prec emax x y COMPARE_EPS = Returns
  <-> exceeds prec emax x y COMPARE_EPS = false.
Proof.
  unfold WeakEqual_real. destruct (exceeds prec emax x y COMPARE_EPS); split;
    (reflexivity || discriminate).
Qed.

Lemma exceeds_comm (x y COMPARE_EPS : real) :
  exceeds prec emax x y COMPARE_EPS = exceeds prec emax y x COMPARE_EPS.
Proof. unfold exceeds. rewrite SFabs_SFsub_comm. reflexivity. Qed.

Lemma WeakEqual_real_comm (x y COMPARE_EPS : real) :
  WeakEqual_real prec emax x y COMPARE_EPS
  = WeakEqual_real prec emax y x COMPARE_EPS.
Proof. unfold WeakEqual_real. rewrite exceeds_comm. reflexivity. Qed.

Lemma WeakEqual_real3_comm (a b : real3.t) (COMPARE_EPS : real) :
  WeakEqual_real3 prec emax a b COMPARE_EPS
  = WeakEqual_real3 prec emax b a COMPARE_EPS.
Proof.
  unfold WeakEqual_real3.
  rewrite (WeakEqual_real_comm (real3.x a)), (WeakEqual_real_comm (real3.y a)),
    (WeakEqual_real_comm (real3.z a)).
  reflexivity.
Qed.

(** A NaN is above nothing and nothing is above a NaN. *)
Lemma SFltb_nan_l (x : spec_float) : SFltb S754_nan x = false.
Proof. reflexivity. Qed.

Lemma SFltb_nan_r (x : spec_float) : SFltb x S754_nan = false.
Proof. destruct x; reflexivity. Qed.

Lemma SFsub_nan (x y : spec_float) :
  is_nan x || is_nan y = true -> SFsub prec emax x y = S754_nan.
Proof. destruct x, y; (discriminate || reflexivity). Qed.

Lemma strict_then_weak_real (x y COMPARE_EPS : real) :
  not_negative COMPARE_EPS = true ->
  StrictEqual_real x y = Returns ->
  WeakEqual_real prec emax x y COMPARE_EPS = Returns.
Proof.
  intros Heps Hs. apply StrictEqual_real_Returns in Hs.
  apply WeakEqual_real_Returns. unfold exceeds.
  pose proof (SFeqb_SFsub prec emax x y Hs) as Hd.
  unfold not_negative in Heps. apply negb_true_iff in Heps.
  destruct (SFsub prec emax x y) as [s | s | | s m e]; try contradiction.
  - exact Heps.
  - apply SFltb_nan_r.
Qed.

Lemma strict_then_weak_real3 (a b : real3.t) (COMPARE_EPS : real) :
  not_negative COMPARE_EPS = true ->
  StrictEqual_real3 a b = Returns ->
  WeakEqual_real3 prec emax a b COMPARE_EPS = Returns.
Proof.
  intros Heps. unfold StrictEqual_real3, WeakEqual_real3.
  rewrite !and_then_Returns. intros (Hx & Hy & Hz).
  repeat split; apply strict_then_weak_real; assumption.
Qed.

(** X11: [StrictEqual] of a real with itself returns unless the real is
    a NaN, for which it exits with status 1; the two zeros are equal. *)
Theorem StrictEqual_real_same (x : real) :
  StrictEqual_real x x = (if is_nan x then Exits 1 else Returns)
  /\ StrictEqual_real (S754_zero false) (S754_zero true) = Returns
  /\ StrictEqual_real (S754_zero true) (S754_zero false) = Returns.
Proof.
  split; [| split; reflexivity].
  unfold StrictEqual_real. rewrite float_eq_refl.
  destruct (is_nan x); reflexivity.
Qed.

(** X12: [WeakEqual] returns whenever one of the two reals compared, or
    the tolerance, is a NaN. *)
Theorem WeakEqual_real_blind_to_nan (x y COMPARE_EPS : real) :
  is_nan x || is_nan y || is_nan COMPARE_EPS = true ->
  WeakEqual_real prec emax x y COMPARE_EPS = Returns.
Proof.
  intros H. apply WeakEqual_real_Returns. unfold exceeds.
  apply orb_true_iff in H as [H | H].
  - rewrite SFsub_nan by assumption. apply SFltb_nan_r.
  - destruct COMPARE_EPS; try discriminate. apply SFltb_nan_l.
Qed.

(** X13: [WeakEqual] gives the same outcome when its two first arguments
    are exchanged, on reals and on each structure of reals. *)
Theorem WeakEqual_symmetric (COMPARE_EPS : real) :
  (forall x y : real,
     WeakEqual_real prec emax x y COMPARE_EPS
     = WeakEqual_real prec emax y x COMPARE_EPS)
  /\ (forall a b : real3.t,
        WeakEqual_real3 prec emax a b COMPARE_EPS
        = WeakEqual_real3 prec emax b a COMPARE_EPS)
  /\ (forall a b : real4.t,
        WeakEqual_real4 prec emax a b COMPARE_EPS
        = WeakEqual_real4 prec emax b a COMPARE_EPS)
  /\ (forall a b : quaternion.t,
        WeakEqual_quaternion prec emax a b COMPARE_EPS
        = WeakEqual_quaternion prec emax b a COMPARE_EPS)
  /\ (forall a b : Mat33.t,
        WeakEqual_Mat33 prec emax a b COMPARE_EPS
        = WeakEqual_Mat33 prec emax b a COMPARE_EPS).
Proof.
  split; [intros x y; apply WeakEqual_real_comm |].
  split; [intros a b; apply WeakEqual_real3_comm |].
  split; [| split].
  - intros a b. unfold WeakEqual_real4.
    rewrite (WeakEqual_real_comm (real4.x a)),
      (WeakEqual_real_comm (real4.y a)), (WeakEqual_real_comm (real4.z a)),
      (WeakEqual_real_comm (real4.w a)).
    reflexivity.
  - intros a b. unfold WeakEqual_quaternion.
    rewrite (WeakEqual_real_comm (quaternion.x a)),
      (WeakEqual_real_comm (quaternion.y a)),
      (WeakEqual_real_comm (quaternion.z a)),
      (WeakEqual_real_comm (quaternion.w a)).
    reflexivity.
  - intros a b. unfold WeakEqual_Mat33.
    rewrite (WeakEqual_real3_comm (Mat33.cols0 a)),
      (WeakEqual_real3_comm (Mat33.cols1 a)),
      (WeakEqual_real3_comm (Mat33.cols2 a)).
    reflexivity.
Qed.

(** X14: two reals that pass [StrictEqual] pass [WeakEqual] for every
    tolerance that is not negative. *)
Theorem StrictEqual_then_WeakEqual (x y COMPARE_EPS : real) :
  not_negative COMPARE_EPS = true ->
  StrictEqual_real x y = Returns ->
  WeakEqual_real prec emax x y COMPARE_EPS = Returns.
Proof. apply strict_then_weak_real. Qed.

(** X15: two vectors, two 4-tuples or two matrices of reals that pass
    [StrictEqual] pass [WeakEqual] for every tolerance that is not
    negative. *)
Theorem StrictEqual_then_WeakEqual_structures (COMPARE_EPS : real) :
  not_negative COMPARE_EPS = true ->
  (forall a b : real3.t,
     StrictEqual_real3 a b = Returns ->
     WeakEqual_real3 prec emax a b COMPARE_EPS = Returns)
  /\ (forall a b : real4.t,
        StrictEqual_real4 a b = Returns ->
        WeakEqual_real4 prec emax a b COMPARE_EPS = Returns)
  /\ (forall a b : Mat33.t,
        StrictEqual_Mat33 a b = Returns ->
        WeakEqual_Mat33 prec emax a b COMPARE_EPS = Returns).
Proof.
  intros Heps. split; [| split].
  - intros a b. apply strict_then_weak_real3, Heps.
  - intros a b. unfold StrictEqual_real4, WeakEqual_real4.
    rewrite !and_then_Returns. intros (Hw & Hx & Hy & Hz).
    repeat split; apply strict_then_weak_real; assumption.
  - intros a b. unfold StrictEqual_Mat33, WeakEqual_Mat33.
    rewrite !and_then_Returns. intros (H0 & H1 & H2).
    repeat split; apply strict_then_weak_real3; assumption.
Qed.

(** X16: with a negative tolerance [WeakEqual] exits with status 1
    whenever the difference of the two reals is not a NaN, so also for a
    number compared with itself. *)
Theorem WeakEqual_negative_tolerance (x y COMPARE_EPS : real) :
  not_negative COMPARE_EPS = false ->
  is_nan (SFsub prec emax x y) = false ->
  WeakEqual_real prec emax x y COMPARE_EPS = Exits 1.
Proof.
  intros Heps Hd. unfold WeakEqual_real, exceeds.
  unfold not_negative in Heps. apply negb_false_iff in Heps.
  destruct (SFsub prec emax x y) as [s | s | | s m e]; try discriminate;
    destruct COMPARE_EPS as [t | t | | t n f]; try discriminate;
    destruct t; try discriminate; reflexivity.
Qed.

End Checks.

(** ** The properties above on concrete data *)

(** X2, witness: a margin set between other setter calls. *)
Lemma last_SetSafeMargin_is_read_witness :
  forallb (fun c => negb (sets_safe_margin c))
    [CallSetEnvelope double_tenth; CallSetContactable (Some tt)] = true
  /\ GetSafeMargin
       (run_setters
          ([CallSetSafeMargin double_tenth; CallSetEnvelope double_zero]
           ++ CallSetSafeMargin double_half
              :: [CallSetEnvelope double_tenth; CallSetContactable (Some tt)])
          new_model)
     = double_to_float double_half.
Proof.
  assert (H : forallb (fun c : @SetterCall unit => negb (sets_safe_margin c))
                [CallSetEnvelope double_tenth; CallSetContactable (Some tt)]
              = true) by reflexivity.
  split; [exact H |].
  exact (last_SetSafeMargin_is_read
           [CallSetSafeMargin double_tenth; CallSetEnvelope double_zero]
           _ double_half new_model H).
Defined.

(** X3, witness: an envelope set between other setter calls. *)
Lemma last_SetEnvelope_is_read_witness :
  forallb (fun c : @SetterCall unit => negb (sets_envelope c))
    [CallSetSafeMargin double_tenth; CallSetContactable None] = true
  /\ GetEnvelope
       (run_setters
          ([CallSetEnvelope double_tenth]
           ++ CallSetEnvelope double_half
              :: [CallSetSafeMargin double_tenth; CallSetContactable None])
          new_model)
     = double_to_float double_half.
Proof.
  assert (H : forallb (fun c : @SetterCall unit => negb (sets_envelope c))
                [CallSetSafeMargin double_tenth; CallSetContactable None]
              = true) by reflexivity.
  split; [exact H |].
  exact (last_SetEnvelope_is_read [CallSetEnvelope double_tenth]
           _ double_half new_model H).
Defined.

(** X7, witness: the float nearest to 0.1. *)
Lemma float_margin_round_trip_witness :
  is_float float_tenth
  /\ GetSafeMargin (SetSafeMargin (float_to_double float_tenth) new_model)
     = float_tenth.
Proof.
  assert (H : is_float float_tenth) by reflexivity.
  split; [exact H |].
  exact (proj1 (proj2 (proj1 (float_margin_round_trip new_model)
                         float_tenth H))).
Defined.

(** X8, witness: the model with two spheres. *)
Lemma GetNumShapes_is_size_witness :
  Z.of_nat (length (m_shapes two_spheres_model)) < 2 ^ 31
  /\ GetNumShapes two_spheres_model
     = Z.of_nat (length (m_shapes two_spheres_model)).
Proof.
  assert (H : Z.of_nat (length (m_shapes two_spheres_model)) < 2 ^ 31)
    by reflexivity.
  split; [exact H |].
  exact (GetNumShapes_is_size two_spheres_model H).
Defined.

(** X9, witness: the second sphere of the model with two spheres. *)
Lemma stored_shape_is_read_witness :
  Z.of_nat (length (m_shapes two_spheres_model)) < 2 ^ 31
  /\ m_shapes two_spheres_model !! 1%nat
     = Some (SphereShape double_half origin)
  /\ GetShape (Z.of_nat 1) two_spheres_model
     = Some (SphereShape double_half origin).
Proof.
  assert (H : Z.of_nat (length (m_shapes two_spheres_model)) < 2 ^ 31)
    by reflexivity.
  assert (Hi : m_shapes two_spheres_model !! 1%nat
               = Some (SphereShape double_half origin)) by reflexivity.
  split; [exact H |]. split; [exact Hi |].
  exact (proj2 (stored_shape_is_read 1 _ two_spheres_model H Hi)).
Defined.

(** X12, witness: a NaN against 0.5 in double precision. *)
Lemma WeakEqual_real_blind_to_nan_witness :
  is_nan S754_nan || is_nan double_half || is_nan double_tenth = true
  /\ WeakEqual_real 53 1024 S754_nan double_half double_tenth = Returns.
Proof.
  assert (H : is_nan S754_nan || is_nan double_half || is_nan double_tenth
              = true) by reflexivity.
  split; [exact H |].
  exact (WeakEqual_real_blind_to_nan 53 1024 S754_nan double_half
           double_tenth H).
Defined.

(** X14, witness: the two zeros, with a tolerance of 0.1. *)
Lemma StrictEqual_then_WeakEqual_witness :
  not_negative double_tenth = true
  /\ StrictEqual_real (S754_zero false) (S754_zero true) = Returns
  /\ WeakEqual_real 53 1024 (S754_zero false) (S754_zero true) double_tenth
     = Returns.
Proof.
  assert (H : not_negative double_tenth = true) by reflexivity.
  assert (Hs : StrictEqual_real (S754_zero false) (S754_zero true) = Returns)
    by reflexivity.
  split; [exact H |]. split; [exact Hs |].
  exact (StrictEqual_then_WeakEqual 53 1024 _ _ double_tenth H Hs).
Defined.

(** X15, witness: a vector against itself, with a tolerance of zero. *)
Lemma StrictEqual_then_WeakEqual_structures_witness :
  not_negative double_zero = true
  /\ StrictEqual_real3 (real3.mk double_half double_tenth double_zero)
       (real3.mk double_half double_tenth double_zero) = Returns
  /\ WeakEqual_real3 53 1024 (real3.mk double_half double_tenth double_zero)
       (real3.mk double_half double_tenth double_zero) double_zero
     = Returns.
Proof.
  assert (H : not_negative double_zero = true) by reflexivity.
  assert (Hs : StrictEqual_real3
                 (real3.mk double_half double_tenth double_zero)
                 (real3.mk double_half double_tenth double_zero) = Returns)
    by reflexivity.
  split; [exact H |]. split; [exact Hs |].
  exact (proj1 (StrictEqual_then_WeakEqual_structures 53 1024 double_zero H)
           _ _ Hs).
Defined.

(** X16, witness: 0.5 against itself with a tolerance of -0.5. *)
Lemma WeakEqual_negative_tolerance_witness :
  not_negative double_minus_half = false
  /\ is_nan (SFsub 53 1024 double_half double_half) = false
  /\ WeakEqual_real 53 1024 double_half double_half double_minus_half
     = Exits 1.
Proof.
  assert (H : not_negative double_minus_half = false) by reflexivity.
  assert (Hd : is_nan (SFsub 53 1024 double_half double_half) = false)
    by reflexivity.
  split; [exact H |]. split; [exact Hd |].
  exact (WeakEqual_negative_tolerance 53 1024 double_half double_half
           double_minus_half H Hd).
Defined.

(** C6, counterexample: with a safe margin of minus infinity and an
    envelope of plus infinity the comparison [==] of
    [GetSuggestedFullMargin()] with [GetSafeMargin() + GetEnvelope()] is
    false. *)
Lemma full_margin_comparison_fails :
  float_eq (GetSuggestedFullMargin infinite_margins_model)
    (float_add (GetSafeMargin infinite_margins_model)
       (GetEnvelope infinite_margins_model))
  = false.
Proof. reflexivity. Qed.
